(** * Resource detection and merge engine of the resourcedetection processor

    Shallow embedding of
    [processor/resourcedetectionprocessor/internal/resourcedetection.go].

    The pdata types the file works on ([pcommon.Value], [pcommon.Map],
    [pcommon.Resource]) are modelled with the semantics of the pdata library:
    a [pcommon.Map] is a slice of key/value pairs, [Get] returns the first
    entry with the key, [PutEmpty] reuses that entry or appends a new one,
    [Range] and [RemoveIf] walk the slice in order.  Go's [interface{}]
    results of [UnwrapAttribute] are modelled by [Plain], where a Go slice
    is [option (list Plain)] ([None] is the nil slice). *)

From Stdlib Require Import String List Bool ZArith Lia Floats.
Import ListNotations.
Open Scope string_scope.
Open Scope list_scope.
Local Set Warnings "-register-all".

(** ** pcommon.Value *)

Inductive Value : Type :=
| VEmpty
| VStr (s : string)
| VInt (i : Z)
| VDouble (d : float)
| VBool (b : bool)
| VMap (m : list (string * Value))
| VSlice (l : list Value)
| VBytes (bs : list Byte.byte).

(** ** pcommon.Map, pcommon.Resource *)

Definition Map := list (string * Value).

Record Resource := mkResource { attributes : Map }.

Definition NewResource : Resource := mkResource [].

(** [Map.Get]: first entry with key [k]. *)
Fixpoint map_get (m : Map) (k : string) : option Value :=
  match m with
  | [] => None
  | (k', v) :: m' => if String.eqb k k' then Some v else map_get m' k
  end.

(** [v.CopyTo(m.PutEmpty(k))]: overwrite the first entry with key [k] in
    place, or append a new entry when there is none. *)
Fixpoint map_put (m : Map) (k : string) (v : Value) : Map :=
  match m with
  | [] => [(k, v)]
  | (k', v') :: m' =>
      if String.eqb k k' then (k', v) :: m' else (k', v') :: map_put m' k v
  end.

(** ** Go values produced by UnwrapAttribute ([interface{}]) *)

Inductive Plain : Type :=
| PNil                                  (* untyped nil interface *)
| PBool (b : bool)
| PInt (i : Z)
| PDouble (d : float)
| PStr (s : string)
| PSlice (s : option (list Plain))      (* []interface{}; None = nil slice *)
| PMap (m : list (string * Plain)).     (* map[string]interface{} *)

(** Go's [append] on a slice: appending to the nil slice allocates. *)
Definition go_append {A} (s : option (list A)) (x : A) : option (list A) :=
  match s with
  | None => Some [x]
  | Some l => Some (app l [x])
  end.

(** Elements of a Go slice (the nil slice has none). *)
Definition go_elems {A} (s : option (list A)) : list A :=
  match s with None => [] | Some l => l end.

(** Go map assignment [mp[k] = v]. *)
Fixpoint gomap_set (mp : list (string * Plain)) (k : string) (v : Plain)
  : list (string * Plain) :=
  match mp with
  | [] => [(k, v)]
  | (k', v') :: mp' =>
      if String.eqb k k' then (k', v) :: mp' else (k', v') :: gomap_set mp' k v
  end.

(** Go map read [mp[k]] with the comma-ok form. *)
Fixpoint gomap_get (mp : list (string * Plain)) (k : string) : option Plain :=
  match mp with
  | [] => None
  | (k', v) :: mp' => if String.eqb k k' then Some v else gomap_get mp' k
  end.

(** [UnwrapAttribute]; its array and map cases are the loops of
    [getSerializableArray] ([var outArr []interface{}] and one [append] per
    element) and [AttributesToMap] ([mp[k] = UnwrapAttribute(v)] in
    [Range] order), restated below under their own names. *)
Fixpoint UnwrapAttribute (v : Value) : Plain :=
  match v with
  | VBool b => PBool b
  | VInt i => PInt i
  | VDouble d => PDouble d
  | VStr s => PStr s
  | VSlice inArr =>
      PSlice (fold_left (fun outArr x => go_append outArr (UnwrapAttribute x)) inArr None)
  | VMap am =>
      PMap (fold_left (fun mp kv => let '(k, x) := kv in gomap_set mp k (UnwrapAttribute x))
              am [])
  | _ => PNil
  end.

Definition getSerializableArray (inArr : list Value) : option (list Plain) :=
  fold_left (fun outArr x => go_append outArr (UnwrapAttribute x)) inArr None.

Definition AttributesToMap (am : Map) : list (string * Plain) :=
  fold_left (fun mp kv => let '(k, x) := kv in gomap_set mp k (UnwrapAttribute x)) am [].

(** ** MergeSchemaURL *)

Definition MergeSchemaURL (currentSchemaURL newSchemaURL : string) : string :=
  if String.eqb currentSchemaURL "" then newSchemaURL
  else if String.eqb newSchemaURL "" then currentSchemaURL
  else if String.eqb currentSchemaURL newSchemaURL then currentSchemaURL
  else currentSchemaURL.

(** ** MergeResource *)

Definition IsEmptyResource (res : Resource) : bool :=
  Nat.eqb (length (attributes res)) 0.

(** One step of [from.Attributes().Range(...)] on [toAttr]. *)
Definition merge_step (overrideTo : bool) (toAttr : Map) (kv : string * Value) : Map :=
  let '(k, v) := kv in
  if overrideTo then map_put toAttr k v
  else match map_get toAttr k with
       | Some _ => toAttr
       | None => map_put toAttr k v
       end.

Definition MergeResource (to from : Resource) (overrideTo : bool) : Resource :=
  if IsEmptyResource from then to
  else mkResource (fold_left (merge_step overrideTo) (attributes from) (attributes to)).

(** ** filterAttributes *)

(** Membership in [attributesToKeep] ([map[string]struct{}]). *)
Definition mem (k : string) (keys : list string) : bool :=
  existsb (String.eqb k) keys.

(** [am.RemoveIf(f)] walks the slice in order, calling [f] once per entry and
    keeping the entries for which it returns false; the callback of
    [filterAttributes] appends each removed key to [droppedAttributes]. *)
Fixpoint removeIf_drop (keep : list string) (am : Map) (dropped : list string)
  : Map * list string :=
  match am with
  | [] => ([], dropped)
  | (k, v) :: am' =>
      if mem k keep then
        let '(kept, d) := removeIf_drop keep am' dropped in ((k, v) :: kept, d)
      else removeIf_drop keep am' (app dropped [k])
  end.

(** Returns the filtered map (the [am] argument is mutated in Go) and the
    dropped keys. *)
Definition filterAttributes (am : Map) (attributesToKeep : list string)
  : Map * list string :=
  if negb (Nat.eqb (length attributesToKeep) 0) then
    removeIf_drop attributesToKeep am []
  else (am, []).

(** ** Contexts and the HTTP client *)

(** A [context.Context]: the values it carries and its deadline (absolute
    time in nanoseconds), if any. *)
Record Context := mkContext {
  ctx_values : list (string * string);
  ctx_deadline : option Z
}.

(** [context.WithTimeout(parent, timeout)] at time [now]: the same values,
    and the earlier of the parent's deadline and [now + timeout]
    ([context.WithDeadline] keeps the parent's deadline when it is
    earlier). *)
Definition WithTimeout (parent : Context) (timeout now : Z) : Context :=
  {| ctx_values := ctx_values parent;
     ctx_deadline :=
       Some match ctx_deadline parent with
            | Some cur => Z.min cur (now + timeout)%Z
            | None => (now + timeout)%Z
            end |}.

(** [*http.Client]: only its [Timeout] is read. *)
Record Client := mkClient { Timeout : Z }.

(** ** Detectors and the provider *)

Definition Error := string.

Definition DetectorType := string.

(** [Detector.Detect(ctx) (resource, schemaURL, err)]; [None] is a nil
    error. *)
Definition Detector := Context -> Resource * string * option Error.

Record resourceResult := mkResult {
  rr_resource : Resource;
  rr_schemaURL : string;
  rr_err : option Error
}.

(** [ResourceProvider]; the logger is left out, [once] is the flag of the
    [sync.Once], [detectedResource] the pointer ([None] = nil). *)
Record ResourceProvider := mkProvider {
  timeout : Z;
  detectors : list Detector;
  detectedResource : option resourceResult;
  once_done : bool;
  attributesToKeep : list string
}.

Definition NewResourceProvider (timeout : Z) (attributesToKeep : list string)
  (detectors : list Detector) : ResourceProvider :=
  {| timeout := timeout; detectors := detectors; detectedResource := None;
     once_done := false; attributesToKeep := attributesToKeep |}.

(** A call of [detector.Detect] as observed from outside: the index of the
    detector in [p.detectors] and the context it was given. *)
Definition DetectCall := (nat * Context)%type.

(** The [for _, detector := range p.detectors] loop of [detectResource]:
    [i] is the index of the current detector, [res] and [mergedSchemaURL]
    the accumulators. *)
Fixpoint detect_loop (ctx : Context) (dets : list Detector) (i : nat)
  (res : Resource) (mergedSchemaURL : string)
  : Resource * string * list DetectCall :=
  match dets with
  | [] => (res, mergedSchemaURL, [])
  | detector :: dets' =>
      let '(r, schemaURL, err) := detector ctx in
      let '(res1, url1) :=
        match err with
        | Some _ => (res, mergedSchemaURL)          (* logger.Warn *)
        | None => (MergeResource res r false, MergeSchemaURL mergedSchemaURL schemaURL)
        end in
      let '(res2, url2, calls) := detect_loop ctx dets' (S i) res1 url1 in
      (res2, url2, (i, ctx) :: calls)
  end.

(** [detectResource]: the result it stores in [p.detectedResource], and the
    [Detect] calls it made. *)
Definition detectResource (p : ResourceProvider) (ctx : Context)
  : resourceResult * list DetectCall :=
  let '(res, mergedSchemaURL, calls) := detect_loop ctx (detectors p) 0 NewResource "" in
  let '(am, droppedAttributes) := filterAttributes (attributes res) (attributesToKeep p) in
  ({| rr_resource := mkResource am; rr_schemaURL := mergedSchemaURL; rr_err := None |},
   calls).

Definition result_triple (r : resourceResult) : Resource * string * option Error :=
  (rr_resource r, rr_schemaURL r, rr_err r).

(** [Get(ctx, client)] at time [now]: the provider after the call, the
    [Detect] calls made, and the returned triple ([None] would be the nil
    dereference of [p.detectedResource]). *)
Definition Get (p : ResourceProvider) (ctx : Context) (client : Client) (now : Z)
  : ResourceProvider * list DetectCall * option (Resource * string * option Error) :=
  let '(p', calls) :=
    if once_done p then (p, [])
    else
      let ctx' := WithTimeout ctx (Timeout client) now in
      let '(r, calls) := detectResource p ctx' in
      ({| timeout := timeout p; detectors := detectors p;
          detectedResource := Some r; once_done := true;
          attributesToKeep := attributesToKeep p |}, calls) in
  (p', calls, option_map result_triple (detectedResource p')).

(** A sequence of [Get] calls on one provider, each with its context, client
    and time: the final provider, all [Detect] calls, all results. *)
Fixpoint run_gets (p : ResourceProvider) (gets : list (Context * Client * Z))
  : ResourceProvider * list DetectCall
    * list (option (Resource * string * option Error)) :=
  match gets with
  | [] => (p, [], [])
  | (ctx, client, now) :: gets' =>
      let '(p1, calls1, out1) := Get p ctx client now in
      let '(p2, calls2, outs) := run_gets p1 gets' in
      (p2, app calls1 calls2, out1 :: outs)
  end.

(** ** ResourceProviderFactory *)

Section Factory.

Variable ProcessorCreateSettings : Type.
Variable DetectorConfig : Type.

(** [DetectorFactory]: the constructor's error, or the detector. *)
Definition DetectorFactory : Type :=
  ProcessorCreateSettings -> DetectorConfig -> Error + Detector.

(** The two errors [getDetectors] builds with [fmt.Errorf]. *)
Inductive FactoryError : Type :=
| InvalidDetectorKey (t : DetectorType)                 (* "invalid detector key: %v" *)
| FailedCreatingDetector (t : DetectorType) (cause : Error). (* "failed creating detector type %q: %w" *)

(** [f.detectors[detectorType]] on the factory's map. *)
Fixpoint lookup_factory (reg : list (DetectorType * DetectorFactory)) (t : DetectorType)
  : option DetectorFactory :=
  match reg with
  | [] => None
  | (t', f) :: reg' => if String.eqb t t' then Some f else lookup_factory reg' t
  end.

(** The loop of [getDetectors]: besides the result, the detector types whose
    factory was invoked, in order. *)
Fixpoint getDetectors_loop (reg : list (DetectorType * DetectorFactory))
  (params : ProcessorCreateSettings) (GetConfigFromType : DetectorType -> DetectorConfig)
  (detectorTypes : list DetectorType) (detectors : list Detector)
  : list DetectorType * (FactoryError + list Detector) :=
  match detectorTypes with
  | [] => ([], inr detectors)
  | detectorType :: rest =>
      match lookup_factory reg detectorType with
      | None => ([], inl (InvalidDetectorKey detectorType))
      | Some detectorFactory =>
          match detectorFactory params (GetConfigFromType detectorType) with
          | inl err => ([detectorType], inl (FailedCreatingDetector detectorType err))
          | inr detector =>
              let '(invoked, r) :=
                getDetectors_loop reg params GetConfigFromType rest (app detectors [detector]) in
              (detectorType :: invoked, r)
          end
      end
  end.

Definition getDetectors (reg : list (DetectorType * DetectorFactory))
  (params : ProcessorCreateSettings) (GetConfigFromType : DetectorType -> DetectorConfig)
  (detectorTypes : list DetectorType) : list DetectorType * (FactoryError + list Detector) :=
  getDetectors_loop reg params GetConfigFromType detectorTypes [].

Definition CreateResourceProvider (reg : list (DetectorType * DetectorFactory))
  (params : ProcessorCreateSettings) (timeout : Z) (attributes : list string)
  (GetConfigFromType : DetectorType -> DetectorConfig) (detectorTypes : list DetectorType)
  : list DetectorType * (FactoryError + ResourceProvider) :=
  let '(invoked, r) := getDetectors reg params GetConfigFromType detectorTypes in
  match r with
  | inl err => (invoked, inl err)
  | inr detectors => (invoked, inr (NewResourceProvider timeout attributes detectors))
  end.

End Factory.

Arguments lookup_factory {ProcessorCreateSettings DetectorConfig} reg t.
Arguments getDetectors_loop {ProcessorCreateSettings DetectorConfig}
  reg params GetConfigFromType detectorTypes detectors.
Arguments getDetectors {ProcessorCreateSettings DetectorConfig}
  reg params GetConfigFromType detectorTypes.
Arguments CreateResourceProvider {ProcessorCreateSettings DetectorConfig}
  reg params timeout attributes GetConfigFromType detectorTypes.


(** * Sanity checks on concrete inputs *)

Example MergeSchemaURL_examples :
  MergeSchemaURL "" "v2" = "v2" /\ MergeSchemaURL "v1" "v2" = "v1"
  /\ MergeSchemaURL "v1" "" = "v1".
Proof. repeat split; reflexivity. Qed.

Example filterAttributes_example :
  filterAttributes [("a", VInt 1); ("b", VInt 2); ("c", VInt 3)] ["a"; "c"]
  = ([("a", VInt 1); ("c", VInt 3)], ["b"]).
Proof. reflexivity. Qed.

Example MergeResource_example :
  MergeResource (mkResource [("k", VStr "a")]) (mkResource [("k", VStr "b"); ("j", VInt 0)]) false
  = mkResource [("k", VStr "a"); ("j", VInt 0)]
  /\ MergeResource (mkResource [("k", VStr "a")]) (mkResource [("k", VStr "b"); ("j", VInt 0)]) true
  = mkResource [("k", VStr "b"); ("j", VInt 0)].
Proof. split; reflexivity. Qed.

Example UnwrapAttribute_example :
  UnwrapAttribute (VSlice []) = PSlice None
  /\ UnwrapAttribute (VSlice [VInt 1; VBytes []]) = PSlice (Some [PInt 1; PNil])
  /\ UnwrapAttribute (VMap [("x", VBool true)]) = PMap [("x", PBool true)].
Proof. repeat split; reflexivity. Qed.

(** * Lemmas on the pdata map operations *)

Lemma map_get_put : forall m k v k',
  map_get (map_put m k v) k' = if String.eqb k' k then Some v else map_get m k'.
Proof.
  induction m as [| [k0 v0] m IH]; intros k v k'; simpl.
  - destruct (String.eqb k' k); reflexivity.
  - destruct (String.eqb k k0) eqn:E.
    + apply String.eqb_eq in E; subst k0. simpl.
      destruct (String.eqb k' k); reflexivity.
    + simpl. rewrite IH.
      destruct (String.eqb k' k0) eqn:E'; [|reflexivity].
      apply String.eqb_eq in E'; subst k0.
      destruct (String.eqb k' k) eqn:E''; [|reflexivity].
      apply String.eqb_eq in E''; subst k.
      rewrite String.eqb_refl in E; discriminate.
Qed.

Lemma map_get_app_single : forall l k k0 v0,
  map_get (app l [(k0, v0)]) k =
  match map_get l k with
  | Some v => Some v
  | None => if String.eqb k k0 then Some v0 else None
  end.
Proof.
  induction l as [| [k1 v1] l IH]; intros k k0 v0; simpl.
  - reflexivity.
  - destruct (String.eqb k k1); [reflexivity | apply IH].
Qed.

Lemma map_get_in_keys : forall m k,
  mem k (map fst m) = match map_get m k with Some _ => true | None => false end.
Proof.
  induction m as [| [k0 v0] m IH]; intros k; simpl; [reflexivity|].
  destruct (String.eqb k k0); simpl; [reflexivity | apply IH].
Qed.

Lemma keys_map_put : forall m k v,
  map fst (map_put m k v) =
  if mem k (map fst m) then map fst m else app (map fst m) [k].
Proof.
  induction m as [| [k0 v0] m IH]; intros k v; simpl; [reflexivity|].
  destruct (String.eqb k k0) eqn:E; simpl.
  - apply String.eqb_eq in E; subst; reflexivity.
  - rewrite IH. destruct (mem k (map fst m)); reflexivity.
Qed.

(** Key order after merging: the keys of [to], then each key of [from] not
    seen before, in [from]'s order. *)
Definition add_key (ks : list string) (k : string) : list string :=
  if mem k ks then ks else app ks [k].

Lemma keys_merge_fold : forall o from to,
  map fst (fold_left (merge_step o) from to) =
  fold_left add_key (map fst from) (map fst to).
Proof.
  induction from as [| [k v] from IH]; intros to; simpl; [reflexivity|].
  rewrite IH. f_equal. unfold add_key.
  destruct o.
  - apply keys_map_put.
  - rewrite map_get_in_keys. destruct (map_get to k) eqn:E.
    + reflexivity.
    + rewrite keys_map_put, map_get_in_keys, E. reflexivity.
Qed.

Lemma get_merge_fold_override : forall from to k,
  map_get (fold_left (merge_step true) from to) k =
  match map_get (rev from) k with
  | Some v => Some v
  | None => map_get to k
  end.
Proof.
  induction from as [| [k0 v0] from IH]; intros to k; simpl; [reflexivity|].
  rewrite IH, map_get_app_single, map_get_put.
  destruct (map_get (rev from) k); [reflexivity|].
  destruct (String.eqb k k0); reflexivity.
Qed.

Lemma get_merge_fold_keep : forall from to k,
  map_get (fold_left (merge_step false) from to) k =
  match map_get to k with
  | Some v => Some v
  | None => map_get from k
  end.
Proof.
  induction from as [| [k0 v0] from IH]; intros to k; simpl.
  - destruct (map_get to k); reflexivity.
  - rewrite IH.
    destruct (map_get to k0) eqn:E0.
    + destruct (map_get to k) eqn:E; [reflexivity|].
      destruct (String.eqb k k0) eqn:Ek; [|reflexivity].
      apply String.eqb_eq in Ek; subst. congruence.
    + rewrite map_get_put.
      destruct (String.eqb k k0) eqn:Ek.
      * apply String.eqb_eq in Ek; subst. rewrite E0. reflexivity.
      * reflexivity.
Qed.

Lemma removeIf_drop_spec : forall keep am dropped,
  removeIf_drop keep am dropped =
  (filter (fun kv => mem (fst kv) keep) am,
   app dropped (map fst (filter (fun kv => negb (mem (fst kv) keep)) am))).
Proof.
  intros keep am; induction am as [| [k v] am IH]; intros dropped; simpl.
  - rewrite app_nil_r. reflexivity.
  - destruct (mem k keep); simpl.
    + rewrite IH. reflexivity.
    + rewrite IH, <- app_assoc. reflexivity.
Qed.

Lemma gomap_get_set : forall mp k v k',
  gomap_get (gomap_set mp k v) k' = if String.eqb k' k then Some v else gomap_get mp k'.
Proof.
  induction mp as [| [k0 v0] mp IH]; intros k v k'; simpl.
  - destruct (String.eqb k' k); reflexivity.
  - destruct (String.eqb k k0) eqn:E.
    + apply String.eqb_eq in E; subst k0. simpl.
      destruct (String.eqb k' k); reflexivity.
    + simpl. rewrite IH.
      destruct (String.eqb k' k0) eqn:E'; [|reflexivity].
      apply String.eqb_eq in E'; subst k0.
      destruct (String.eqb k' k) eqn:E''; [|reflexivity].
      apply String.eqb_eq in E''; subst k.
      rewrite String.eqb_refl in E; discriminate.
Qed.

Lemma getSerializableArray_loop : forall l s,
  go_elems (fold_left (fun outArr x => go_append outArr (UnwrapAttribute x)) l s) =
  app (go_elems s) (map UnwrapAttribute l).
Proof.
  induction l as [| x l IH]; intros s; simpl.
  - rewrite app_nil_r. reflexivity.
  - rewrite IH. destruct s as [s|]; simpl; [rewrite <- app_assoc|]; reflexivity.
Qed.

Lemma AttributesToMap_loop : forall am mp k,
  gomap_get (fold_left (fun mp kv => let '(k, x) := kv in gomap_set mp k (UnwrapAttribute x))
               am mp) k =
  match map_get (rev am) k with
  | Some v => Some (UnwrapAttribute v)
  | None => gomap_get mp k
  end.
Proof.
  induction am as [| [k0 v0] am IH]; intros mp k; simpl; [reflexivity|].
  rewrite IH, map_get_app_single, gomap_get_set.
  destruct (map_get (rev am) k); [reflexivity|].
  destruct (String.eqb k k0); reflexivity.
Qed.

(** Model of how [encoding/json] (used by zap to render the logged
    [map[string]interface{}]) writes a [Plain] value: a nil slice and a nil
    interface are both written as [null]. *)
Inductive Json : Type :=
| JNull
| JBool (b : bool)
| JInt (i : Z)
| JFloat (d : float)
| JString (s : string)
| JArray (l : list Json)
| JObject (m : list (string * Json)).

Fixpoint json_of (p : Plain) : Json :=
  match p with
  | PNil => JNull
  | PBool b => JBool b
  | PInt i => JInt i
  | PDouble d => JFloat d
  | PStr s => JString s
  | PSlice None => JNull
  | PSlice (Some l) => JArray (map json_of l)
  | PMap m => JObject (map (fun kv => (fst kv, json_of (snd kv))) m)
  end.

(** * Lemmas on the provider *)

(** Detect results of the detectors that succeed on [ctx], in order. *)
Fixpoint successes (ctx : Context) (dets : list Detector) : list (Resource * string) :=
  match dets with
  | [] => []
  | d :: dets' =>
      let '(r, schemaURL, err) := d ctx in
      match err with
      | Some _ => successes ctx dets'
      | None => (r, schemaURL) :: successes ctx dets'
      end
  end.

Lemma detect_loop_spec : forall ctx dets i res url,
  detect_loop ctx dets i res url =
  (fold_left (fun acc rs => MergeResource acc (fst rs) false) (successes ctx dets) res,
   fold_left (fun acc rs => MergeSchemaURL acc (snd rs)) (successes ctx dets) url,
   map (fun j => (j, ctx)) (seq i (length dets))).
Proof.
  intros ctx dets; induction dets as [| d dets IH]; intros i res url; simpl; [reflexivity|].
  destruct (d ctx) as [[r schemaURL] [e|]]; rewrite IH; reflexivity.
Qed.

Lemma detectResource_spec : forall p ctx,
  detectResource p ctx =
  ({| rr_resource :=
        mkResource (fst (filterAttributes
          (attributes (fold_left (fun acc rs => MergeResource acc (fst rs) false)
                                 (successes ctx (detectors p)) NewResource))
          (attributesToKeep p)));
      rr_schemaURL := fold_left (fun acc rs => MergeSchemaURL acc (snd rs))
                                (successes ctx (detectors p)) "";
      rr_err := None |},
   map (fun j => (j, ctx)) (seq 0 (length (detectors p)))).
Proof.
  intros p ctx; unfold detectResource; rewrite detect_loop_spec.
  destruct (filterAttributes _ _); reflexivity.
Qed.

(** A provider whose [once] has fired: [Get] makes no [Detect] call and
    returns the stored triple. *)
Lemma run_gets_done : forall p r gets,
  once_done p = true -> detectedResource p = Some r ->
  run_gets p gets = (p, [], repeat (Some (result_triple r)) (length gets)).
Proof.
  intros p r gets Hd Hr; induction gets as [| [[ctx client] now] gets IH]; simpl; [reflexivity|].
  unfold Get; rewrite Hd, Hr, IH; reflexivity.
Qed.

(** The first [Get] on a new provider runs [detectResource] under
    [WithTimeout ctx client.Timeout]; all later ones return its result. *)
Lemma run_gets_new : forall t keep dets ctx client now gets,
  let p := NewResourceProvider t keep dets in
  let ctx' := WithTimeout ctx (Timeout client) now in
  exists p',
    once_done p' = true
    /\ detectedResource p' = Some (fst (detectResource p ctx'))
    /\ run_gets p ((ctx, client, now) :: gets) =
       (p', snd (detectResource p ctx'),
        repeat (Some (result_triple (fst (detectResource p ctx')))) (S (length gets))).
Proof.
  intros t keep dets ctx client now gets p ctx'.
  destruct (detectResource p ctx') as [r calls] eqn:E.
  set (p' := {| timeout := t; detectors := dets; detectedResource := Some r;
                once_done := true; attributesToKeep := keep |}).
  exists p'; split; [reflexivity|]; split; [reflexivity|].
  simpl. unfold Get. simpl. fold ctx'. fold p. rewrite E.
  fold p'. rewrite (run_gets_done p' r gets eq_refl eq_refl), app_nil_r. reflexivity.
Qed.

Lemma MergeResource_keep_get : forall to from k,
  map_get (attributes (MergeResource to from false)) k =
  match map_get (attributes to) k with
  | Some v => Some v
  | None => map_get (attributes from) k
  end.
Proof.
  intros [t] [[| kv f]] k; unfold MergeResource, IsEmptyResource; simpl.
  - destruct (map_get t k); reflexivity.
  - apply (get_merge_fold_keep (kv :: f)).
Qed.

Lemma filter_get : forall (P : string -> bool) am k,
  map_get (filter (fun kv => P (fst kv)) am) k = if P k then map_get am k else None.
Proof.
  intros P am k; induction am as [| [k0 v0] am IH]; simpl.
  - destruct (P k); reflexivity.
  - destruct (P k0) eqn:E0; simpl.
    + destruct (String.eqb k k0) eqn:E; [|exact IH].
      apply String.eqb_eq in E; subst; rewrite E0; reflexivity.
    + rewrite IH. destruct (String.eqb k k0) eqn:E; [|reflexivity].
      apply String.eqb_eq in E; subst; rewrite E0; reflexivity.
Qed.

Lemma filterAttributes_get : forall am keep k,
  map_get (fst (filterAttributes am keep)) k =
  if orb (Nat.eqb (length keep) 0) (mem k keep) then map_get am k else None.
Proof.
  intros am [| k0 ks] k; unfold filterAttributes; simpl; [reflexivity|].
  rewrite removeIf_drop_spec; simpl.
  apply (filter_get (fun k => mem k (k0 :: ks))).
Qed.

Lemma Get_new : forall t keep dets ctx client now,
  let p := NewResourceProvider t keep dets in
  let ctx' := WithTimeout ctx (Timeout client) now in
  Get p ctx client now =
  ({| timeout := t; detectors := dets; detectedResource := Some (fst (detectResource p ctx'));
      once_done := true; attributesToKeep := keep |},
   snd (detectResource p ctx'),
   Some (result_triple (fst (detectResource p ctx')))).
Proof.
  intros t keep dets ctx client now p ctx'.
  unfold Get; simpl. fold ctx'. fold p.
  destruct (detectResource p ctx'); reflexivity.
Qed.

(** ** Lemmas on the factory *)

(** What one iteration of the [getDetectors] loop does with a type. *)
Definition construct {P C} (reg : list (DetectorType * DetectorFactory P C)) (params : P)
  (GetConfigFromType : DetectorType -> C) (t : DetectorType) : FactoryError + Detector :=
  match lookup_factory reg t with
  | None => inl (InvalidDetectorKey t)
  | Some f =>
      match f params (GetConfigFromType t) with
      | inl e => inl (FailedCreatingDetector t e)
      | inr d => inr d
      end
  end.

(** The factory invoked for [t], if the registry has one. *)
Definition invoked {P C} (reg : list (DetectorType * DetectorFactory P C)) (t : DetectorType)
  : list DetectorType :=
  match lookup_factory reg t with Some _ => [t] | None => [] end.

Lemma getDetectors_loop_prefix : forall P C (reg : list (DetectorType * DetectorFactory P C))
  params cfg pre ds,
  Forall2 (fun t d => construct reg params cfg t = inr d) pre ds ->
  forall rest acc,
  getDetectors_loop reg params cfg (app pre rest) acc =
  let '(inv, r) := getDetectors_loop reg params cfg rest (app acc ds) in (app pre inv, r).
Proof.
  intros P C reg params cfg pre ds HF; induction HF as [| t d pre ds Hc HF IH];
    intros rest acc; simpl.
  - rewrite app_nil_r. destruct (getDetectors_loop reg params cfg rest acc); reflexivity.
  - unfold construct in Hc.
    destruct (lookup_factory reg t) as [f|]; [|discriminate].
    destruct (f params (cfg t)) as [e|d']; [discriminate|].
    injection Hc as ->. rewrite IH, <- app_assoc. simpl.
    destruct (getDetectors_loop reg params cfg rest (app acc (d :: ds))); reflexivity.
Qed.

(** ** Further lemmas: keys, schema URLs, per-key values *)

Lemma mem_false_not_in : forall k ks, mem k ks = false -> ~ In k ks.
Proof.
  intros k ks H Hin. unfold mem in H.
  assert (existsb (String.eqb k) ks = true)
    by (apply existsb_exists; exists k; split; [exact Hin | apply String.eqb_refl]).
  congruence.
Qed.

Lemma NoDup_snoc : forall (l : list string) x, NoDup l -> ~ In x l -> NoDup (app l [x]).
Proof.
  induction l as [| y l IH]; intros x Hnd Hni; simpl.
  - constructor; [intros []| constructor].
  - inversion Hnd as [| ? ? Hy Hnd']; subst.
    constructor.
    + intros Hin. apply in_app_or in Hin as [Hin|[Hin|[]]].
      * exact (Hy Hin).
      * subst. apply Hni. left. reflexivity.
    + apply IH; [exact Hnd'|]. intros Hin. apply Hni. right. exact Hin.
Qed.

Lemma add_keys_NoDup : forall ks0 ks, NoDup ks -> NoDup (fold_left add_key ks0 ks).
Proof.
  induction ks0 as [| k ks0 IH]; intros ks Hnd; simpl; [exact Hnd|].
  apply IH. unfold add_key. destruct (mem k ks) eqn:E; [exact Hnd|].
  apply NoDup_snoc; [exact Hnd | apply mem_false_not_in; exact E].
Qed.

Lemma MergeResource_keys : forall to from o,
  map fst (attributes (MergeResource to from o)) =
  fold_left add_key (map fst (attributes from)) (map fst (attributes to)).
Proof.
  intros [t] [[| kv f]] o; unfold MergeResource, IsEmptyResource; simpl; [reflexivity|].
  apply (keys_merge_fold o (kv :: f)).
Qed.

Lemma in_keys_get : forall (m : Map) k, In k (map fst m) -> map_get m k <> None.
Proof.
  induction m as [| [k0 v0] m IH]; intros k Hin; simpl in *; [destruct Hin|].
  destruct (String.eqb k k0) eqn:E; [discriminate|].
  destruct Hin as [Hin|Hin].
  - subst. rewrite String.eqb_refl in E. discriminate.
  - apply IH. exact Hin.
Qed.

Lemma map_put_absent : forall m k v, map_get m k = None -> map_put m k v = app m [(k, v)].
Proof.
  induction m as [| [k0 v0] m IH]; intros k v H; simpl in *; [reflexivity|].
  destruct (String.eqb k k0) eqn:E; [discriminate|].
  rewrite (IH k v H). reflexivity.
Qed.

Lemma merge_fold_keep_noop : forall from to,
  (forall k, In k (map fst from) -> map_get to k <> None) ->
  fold_left (merge_step false) from to = to.
Proof.
  induction from as [| [k v] from IH]; intros to H; simpl; [reflexivity|].
  destruct (map_get to k) eqn:E.
  - apply IH. intros k' Hk'. apply H. right. exact Hk'.
  - exfalso. apply (H k); [left; reflexivity | exact E].
Qed.

Lemma filter_idem : forall (P : string * Value -> bool) (am : Map),
  filter P (filter P am) = filter P am.
Proof.
  intros P am; induction am as [| kv am IH]; simpl; [reflexivity|].
  destruct (P kv) eqn:E; simpl; [rewrite E, IH|]; [reflexivity|exact IH].
Qed.

Lemma filter_neg_nil : forall (P : string * Value -> bool) (am : Map),
  filter (fun kv => negb (P kv)) (filter P am) = [].
Proof.
  intros P am; induction am as [| kv am IH]; simpl; [reflexivity|].
  destruct (P kv) eqn:E; simpl; [rewrite E; simpl|]; exact IH.
Qed.

Lemma filter_keys_NoDup : forall (P : string * Value -> bool) (am : Map),
  NoDup (map fst am) -> NoDup (map fst (filter P am)).
Proof.
  intros P am; induction am as [| [k v] am IH]; intros Hnd; simpl; [constructor|].
  inversion Hnd as [| ? ? Hk Hnd']; subst.
  destruct (P (k, v)); simpl; [|apply IH; exact Hnd'].
  constructor; [|apply IH; exact Hnd'].
  intros Hin. apply Hk. apply in_map_iff in Hin as [[k' v'] [Heq Hin]].
  simpl in Heq; subst k'. apply filter_In in Hin as [Hin _].
  apply in_map_iff. exists (k, v'). split; [reflexivity | exact Hin].
Qed.

Lemma filterAttributes_keys_NoDup : forall am keep,
  NoDup (map fst am) -> NoDup (map fst (fst (filterAttributes am keep))).
Proof.
  intros am [| k0 ks] Hnd; unfold filterAttributes; simpl; [exact Hnd|].
  rewrite removeIf_drop_spec. simpl. apply filter_keys_NoDup. exact Hnd.
Qed.

(** The first non-empty string of a list, or [""]. *)
Fixpoint first_nonempty (l : list string) : string :=
  match l with
  | [] => ""
  | u :: l' => if String.eqb u "" then first_nonempty l' else u
  end.

Lemma fold_MergeSchemaURL : forall (rs : list (Resource * string)) acc,
  fold_left (fun acc rs => MergeSchemaURL acc (snd rs)) rs acc =
  if String.eqb acc "" then first_nonempty (map snd rs) else acc.
Proof.
  induction rs as [| [r u] rs IH]; intros acc; simpl.
  - destruct (String.eqb acc "") eqn:E; [apply String.eqb_eq in E; subst|]; reflexivity.
  - rewrite IH. unfold MergeSchemaURL.
    destruct (String.eqb acc "") eqn:Ea.
    + reflexivity.
    + destruct (String.eqb u "") eqn:Eu; [rewrite Ea; reflexivity|].
      destruct (String.eqb acc u); rewrite Ea; reflexivity.
Qed.

(** The value for [k] in the first resource of [rs] that has [k]. *)
Fixpoint first_get (k : string) (rs : list (Resource * string)) : option Value :=
  match rs with
  | [] => None
  | (r, _) :: rs' =>
      match map_get (attributes r) k with
      | Some v => Some v
      | None => first_get k rs'
      end
  end.

Lemma fold_merge_keep_get : forall (rs : list (Resource * string)) acc k,
  map_get (attributes (fold_left (fun acc rs => MergeResource acc (fst rs) false) rs acc)) k =
  match map_get (attributes acc) k with
  | Some v => Some v
  | None => first_get k rs
  end.
Proof.
  induction rs as [| [r u] rs IH]; intros acc k; simpl.
  - destruct (map_get (attributes acc) k); reflexivity.
  - rewrite IH, MergeResource_keep_get.
    destruct (map_get (attributes acc) k); reflexivity.
Qed.

Lemma fold_merge_keys_NoDup : forall (rs : list (Resource * string)) acc,
  NoDup (map fst (attributes acc)) ->
  NoDup (map fst (attributes (fold_left (fun acc rs => MergeResource acc (fst rs) false) rs acc))).
Proof.
  induction rs as [| [r u] rs IH]; intros acc Hnd; simpl; [exact Hnd|].
  apply IH. rewrite MergeResource_keys. apply add_keys_NoDup. exact Hnd.
Qed.

Lemma successes_all_fail : forall ctx dets,
  Forall (fun d : Detector => exists r s e, d ctx = (r, s, Some e)) dets ->
  successes ctx dets = [].
Proof.
  intros ctx dets HF; induction HF as [| d dets (r & s & e & Hd) HF IH]; simpl; [reflexivity|].
  rewrite Hd. exact IH.
Qed.

(** * Claims *)

(** C5: [MergeSchemaURL current incoming] is [incoming] when [current] is
    empty and [current] otherwise; this covers all four cases of the claim
    (current empty: incoming; incoming empty: current; equal: current;
    both non-empty and different: current unchanged), so the first
    non-empty schema URL wins and is sticky. *)
Theorem MergeSchemaURL_first_nonempty_wins : forall current incoming,
  MergeSchemaURL current incoming = if String.eqb current "" then incoming else current.
Proof.
  intros current incoming; unfold MergeSchemaURL.
  destruct (String.eqb current ""); [reflexivity|].
  destruct (String.eqb incoming ""); [reflexivity|].
  destruct (String.eqb current incoming); reflexivity.
Qed.

(** C6: [MergeResource to from overrideTo] leaves [to] unchanged when [from]
    has no attribute; otherwise it walks [from] in order: with
    [overrideTo = true] every key of [from] is written (the last occurrence
    in [from] wins, replacing any entry of [to]); with [overrideTo = false]
    a key of [to] keeps its value and only absent keys are copied (the first
    occurrence in [from] wins). New keys are appended in [from]'s order and
    replaced entries keep their position. *)
Theorem MergeResource_semantics : forall (to from : Resource) (overrideTo : bool) (k : string),
  MergeResource to (mkResource []) overrideTo = to
  /\ map_get (attributes (MergeResource to from true)) k =
     match map_get (rev (attributes from)) k with
     | Some v => Some v
     | None => map_get (attributes to) k
     end
  /\ map_get (attributes (MergeResource to from false)) k =
     match map_get (attributes to) k with
     | Some v => Some v
     | None => map_get (attributes from) k
     end
  /\ map fst (attributes (MergeResource to from overrideTo)) =
     fold_left add_key (map fst (attributes from)) (map fst (attributes to)).
Proof.
  intros [t] [f] o k; unfold MergeResource, IsEmptyResource; simpl.
  split; [reflexivity|].
  destruct f as [| kv f]; simpl.
  - repeat split; try reflexivity; destruct (map_get t k); reflexivity.
  - repeat split.
    + apply (get_merge_fold_override (kv :: f)).
    + apply (get_merge_fold_keep (kv :: f)).
    + apply (keys_merge_fold o (kv :: f)).
Qed.

(** C7: with an empty [attributesToKeep], [filterAttributes] keeps the map
    and reports no dropped key; with a non-empty one it keeps exactly the
    entries whose key is in the set, in order, and reports the keys of the
    removed entries in the map's order. *)
Theorem filterAttributes_semantics : forall (am : Map) (k0 : string) (ks : list string),
  filterAttributes am [] = (am, [])
  /\ filterAttributes am (k0 :: ks) =
     (filter (fun kv => mem (fst kv) (k0 :: ks)) am,
      map fst (filter (fun kv => negb (mem (fst kv) (k0 :: ks))) am)).
Proof.
  intros am k0 ks; split; [reflexivity|].
  unfold filterAttributes; simpl. apply removeIf_drop_spec.
Qed.

(** C9: [UnwrapAttribute] is a total function; booleans, integers, doubles
    and strings come out as the same scalars; an array becomes a Go slice
    whose elements are the element-wise conversions; a map becomes a Go map
    whose entry for each key is the conversion of the map's value for it
    (the last entry with that key; pdata maps have unique keys); empty and
    bytes values (the unsupported variants) become nil. *)
Theorem UnwrapAttribute_structure :
  forall (b : bool) (i : Z) (d : float) (s : string) (l : list Value) (am : Map)
         (k : string) (bs : list Byte.byte),
  UnwrapAttribute (VBool b) = PBool b
  /\ UnwrapAttribute (VInt i) = PInt i
  /\ UnwrapAttribute (VDouble d) = PDouble d
  /\ UnwrapAttribute (VStr s) = PStr s
  /\ UnwrapAttribute (VSlice l) = PSlice (getSerializableArray l)
  /\ go_elems (getSerializableArray l) = map UnwrapAttribute l
  /\ UnwrapAttribute (VMap am) = PMap (AttributesToMap am)
  /\ gomap_get (AttributesToMap am) k = option_map UnwrapAttribute (map_get (rev am) k)
  /\ UnwrapAttribute VEmpty = PNil
  /\ UnwrapAttribute (VBytes bs) = PNil.
Proof.
  intros b i d s l am k bs.
  repeat split.
  - unfold getSerializableArray. rewrite getSerializableArray_loop. reflexivity.
  - unfold AttributesToMap. rewrite AttributesToMap_loop.
    destruct (map_get (rev am) k); reflexivity.
Qed.

(** C10 (claim as stated, refuted): the conversion of an empty array is a
    nil [[]interface{}], which as a Go [interface{}] value is not the
    untyped nil returned for unsupported variants ([v == nil] is false). *)
Lemma empty_array_not_null_marker :
  UnwrapAttribute (VSlice []) <> UnwrapAttribute VEmpty.
Proof. simpl. discriminate. Qed.

(** C10 (amended): for a zero-element array [getSerializableArray] returns
    the nil slice rather than an allocated empty slice, [UnwrapAttribute]
    returns that slice (typed, no elements), distinct from the untyped nil
    of unsupported variants; once rendered as JSON for the log both are
    [null]. *)
Theorem empty_array_nil_slice :
  getSerializableArray [] = None
  /\ UnwrapAttribute (VSlice []) = PSlice None
  /\ UnwrapAttribute (VSlice []) <> PNil
  /\ json_of (UnwrapAttribute (VSlice [])) = json_of (UnwrapAttribute VEmpty)
  /\ json_of (UnwrapAttribute (VSlice [])) = JNull.
Proof. repeat split; discriminate. Qed.

(** C1: on a provider built by [NewResourceProvider], a sequence of [Get]
    calls (each with any context, client and time) runs [detectResource]
    once, at the first call: every detector's [Detect] is called exactly
    once, in order, on the first caller's derived context; the result is
    stored in [detectedResource] and every call, the first and all later
    ones, returns that same triple.  The [sync.Once] is modelled by its
    flag, with the calls in the order they acquire it. *)
Theorem Get_detects_once : forall t keep dets ctx client now gets,
  let p := NewResourceProvider t keep dets in
  let ctx' := WithTimeout ctx (Timeout client) now in
  let r := fst (detectResource p ctx') in
  exists p',
    run_gets p ((ctx, client, now) :: gets) =
      (p', map (fun j => (j, ctx')) (seq 0 (length dets)),
       repeat (Some (result_triple r)) (S (length gets)))
    /\ detectedResource p' = Some r.
Proof.
  intros t keep dets ctx client now gets p ctx' r.
  destruct (run_gets_new t keep dets ctx client now gets) as (p' & _ & Hr & Hrun).
  exists p'. fold p ctx' in Hr, Hrun. split; [|exact Hr].
  assert (Hc : snd (detectResource p ctx') = map (fun j => (j, ctx')) (seq 0 (length dets)))
    by (rewrite detectResource_spec; reflexivity).
  rewrite Hrun, Hc. reflexivity.
Qed.

(** C2 (claim as stated, refuted): with an allow-list that does not name
    [k], the resource returned by [Get] has no [k], so it does not hold
    D1's value. *)
Lemma merge_precedence_filtered_counterexample :
  let d1 : Detector := fun _ => (mkResource [("k", VStr "a")], "", None) in
  let d2 : Detector := fun _ => (mkResource [("k", VStr "b")], "", None) in
  match Get (NewResourceProvider 0 ["other"] [d1; d2]) (mkContext [] None) (mkClient 1) 0 with
  | (_, _, Some (res, _, _)) => map_get (attributes res) "k" <> Some (VStr "a")
  | _ => False
  end.
Proof. vm_compute. discriminate. Qed.

(** C2 (amended): with detectors [[d1; d2]] that both succeed on the derived
    context and [d1] giving [k] the value [a], the resource returned by
    [Get] maps [k] to [a] (whatever [d2] gives for [k]) when [k] passes the
    attribute filter ([attributesToKeep] empty or containing [k]), and has
    no [k] otherwise; [err] is nil. *)
Theorem Get_merge_precedence : forall t keep (d1 d2 : Detector) ctx client now
  r1 s1 r2 s2 k a,
  let ctx' := WithTimeout ctx (Timeout client) now in
  d1 ctx' = (r1, s1, None) -> d2 ctx' = (r2, s2, None) ->
  map_get (attributes r1) k = Some a ->
  exists p' calls res url,
    Get (NewResourceProvider t keep [d1; d2]) ctx client now = (p', calls, Some (res, url, None))
    /\ map_get (attributes res) k =
       if orb (Nat.eqb (length keep) 0) (mem k keep) then Some a else None.
Proof.
  intros t keep d1 d2 ctx client now r1 s1 r2 s2 k a ctx' H1 H2 Ha.
  rewrite Get_new. fold ctx'. rewrite detectResource_spec. simpl.
  rewrite H1, H2. simpl.
  do 4 eexists. split; [reflexivity|].
  cbn [rr_resource attributes].
  rewrite filterAttributes_get, !MergeResource_keep_get. simpl. rewrite Ha.
  reflexivity.
Qed.

Lemma Get_merge_precedence_witness :
  let d1 : Detector := fun _ => (mkResource [("k", VStr "a")], "", None) in
  let d2 : Detector := fun _ => (mkResource [("k", VStr "b")], "", None) in
  d1 (WithTimeout (mkContext [] None) 1 0) = (mkResource [("k", VStr "a")], "", None)
  /\ exists p' calls res url,
    Get (NewResourceProvider 0 [] [d1; d2]) (mkContext [] None) (mkClient 1) 0
      = (p', calls, Some (res, url, None))
    /\ map_get (attributes res) "k" = Some (VStr "a").
Proof.
  intros d1 d2. split; [reflexivity|].
  exact (Get_merge_precedence 0 [] d1 d2 (mkContext [] None) (mkClient 1) 0
           (mkResource [("k", VStr "a")]) "" (mkResource [("k", VStr "b")]) "" "k" (VStr "a")
           eq_refl eq_refl eq_refl).
Defined.

(** C3 (claim as stated, refuted): the detection pass is not bounded by the
    provider's [timeout]: with [timeout = 5] and a client whose [Timeout] is
    10, the detector is called with a context whose deadline is [now + 10]. *)
Lemma Get_timeout_counterexample :
  let d : Detector := fun _ => (NewResource, "", None) in
  let p := NewResourceProvider 5 [] [d] in
  let ctx := mkContext [] None in
  snd (fst (Get p ctx (mkClient 10) 0)) <> [(0%nat, WithTimeout ctx (timeout p) 0)].
Proof. vm_compute. discriminate. Qed.

(** C3 (amended): the first [Get] runs the whole detection pass (every
    [Detect] call) under [context.WithTimeout(ctx, client.Timeout)]: the
    caller's context values, and a deadline no later than [now] plus the
    [Timeout] of the [*http.Client] passed to [Get]; the provider's own
    [timeout] field plays no part. *)
Theorem Get_runs_under_client_timeout : forall t keep dets ctx client now,
  let ctx' := WithTimeout ctx (Timeout client) now in
  snd (fst (Get (NewResourceProvider t keep dets) ctx client now)) =
    map (fun j => (j, ctx')) (seq 0 (length dets))
  /\ ctx_values ctx' = ctx_values ctx
  /\ exists dl, ctx_deadline ctx' = Some dl /\ (dl <= now + Timeout client)%Z.
Proof.
  intros t keep dets ctx client now ctx'.
  split; [|split; [reflexivity|]].
  - rewrite Get_new, detectResource_spec. reflexivity.
  - unfold ctx', WithTimeout; simpl.
    destruct (ctx_deadline ctx) as [cur|]; eexists; split; try reflexivity; lia.
Qed.

(** C4: on a new provider, [Get] calls every detector in order whatever
    fails; the returned resource and schema URL are the merge of the
    results of the detectors that succeeded only (failed detectors
    contribute neither attributes nor schema URL), and the error is nil;
    every [Get] in any sequence of calls returns a nil error. *)
Theorem Get_skips_failed_detectors : forall t keep dets ctx client now,
  let p := NewResourceProvider t keep dets in
  let ctx' := WithTimeout ctx (Timeout client) now in
  snd (fst (Get p ctx client now)) = map (fun j => (j, ctx')) (seq 0 (length dets))
  /\ snd (Get p ctx client now) =
     Some (mkResource (fst (filterAttributes
             (attributes (fold_left (fun acc rs => MergeResource acc (fst rs) false)
                                    (successes ctx' dets) NewResource)) keep)),
           fold_left (fun acc rs => MergeSchemaURL acc (snd rs)) (successes ctx' dets) "",
           None)
  /\ forall gets,
     Forall (fun o => exists res url, o = Some (res, url, None)) (snd (run_gets p gets)).
Proof.
  intros t keep dets ctx client now p ctx'.
  split; [|split].
  - unfold p; rewrite Get_new, detectResource_spec. reflexivity.
  - unfold p; rewrite Get_new, detectResource_spec. reflexivity.
  - intros [| [[c cl] n] gets]; simpl; [constructor|].
    destruct (run_gets_new t keep dets c cl n gets) as (p' & _ & _ & Hrun).
    simpl in Hrun. fold p in Hrun. rewrite Hrun. simpl.
    constructor; [|apply Forall_forall; intros o Ho; apply repeat_spec in Ho; subst o];
      rewrite detectResource_spec; do 2 eexists; reflexivity.
Qed.

(** C8: [getDetectors] handles the requested types in order.  If every
    type of [pre] is in the registry and its constructor succeeds, the
    result is the constructed detectors in request order (every factory
    invoked once, in order).  If then the next type [t] is absent from the
    registry or its constructor fails, the result is that error, with no
    detector list, and no factory after [t] is invoked. *)
Theorem getDetectors_fail_fast : forall P C (reg : list (DetectorType * DetectorFactory P C))
  params cfg pre ds,
  Forall2 (fun t d => construct reg params cfg t = inr d) pre ds ->
  getDetectors reg params cfg pre = (pre, inr ds)
  /\ forall t post,
     match construct reg params cfg t with
     | inl e => getDetectors reg params cfg (app pre (t :: post)) = (app pre (invoked reg t), inl e)
     | inr _ => True
     end.
Proof.
  intros P C reg params cfg pre ds HF. split.
  - unfold getDetectors.
    pose proof (getDetectors_loop_prefix P C reg params cfg pre ds HF [] []) as H.
    rewrite app_nil_r in H. rewrite H. simpl. rewrite app_nil_r. reflexivity.
  - intros t post. unfold getDetectors.
    rewrite (getDetectors_loop_prefix P C reg params cfg pre ds HF (t :: post) []).
    unfold construct, invoked; simpl.
    destruct (lookup_factory reg t) as [f|]; [|reflexivity].
    destruct (f params (cfg t)); reflexivity.
Qed.

Lemma getDetectors_fail_fast_witness :
  let d0 : Detector := fun _ => (NewResource, "", None) in
  let reg : list (DetectorType * DetectorFactory unit unit) :=
    [("a", fun _ _ => inr d0); ("bad", fun _ _ => inl "boom")] in
  Forall2 (fun t d => construct reg tt (fun _ => tt) t = inr d) ["a"] [d0]
  /\ getDetectors reg tt (fun _ => tt) ["a"] = (["a"], inr [d0])
  /\ getDetectors reg tt (fun _ => tt) ["a"; "bad"; "zzz"]
     = (["a"; "bad"], inl (FailedCreatingDetector "bad" "boom")).
Proof.
  intros d0 reg.
  assert (HF : Forall2 (fun t d => construct reg tt (fun _ => tt) t = inr d) ["a"] [d0])
    by (repeat constructor).
  destruct (getDetectors_fail_fast unit unit reg tt (fun _ => tt) ["a"] [d0] HF) as [H1 H2].
  split; [exact HF|]. split; [exact H1|].
  exact (H2 "bad" ["zzz"]).
Defined.

(** * Further properties of the code *)

(** [CreateResourceProvider]: when every requested type is in the registry
    and constructs, it returns a provider holding the detectors in request
    order, the given timeout and attribute list, and nothing detected yet;
    if the next type after such a prefix fails, it returns that error and
    no provider. *)
Theorem CreateResourceProvider_result : forall P C (reg : list (DetectorType * DetectorFactory P C))
  params tmo attrs cfg pre ds,
  Forall2 (fun t d => construct reg params cfg t = inr d) pre ds ->
  CreateResourceProvider reg params tmo attrs cfg pre = (pre, inr (NewResourceProvider tmo attrs ds))
  /\ forall t post,
     match construct reg params cfg t with
     | inl e => CreateResourceProvider reg params tmo attrs cfg (app pre (t :: post))
                = (app pre (invoked reg t), inl e)
     | inr _ => True
     end.
Proof.
  intros P C reg params tmo attrs cfg pre ds HF. unfold CreateResourceProvider, getDetectors.
  split.
  - pose proof (getDetectors_loop_prefix P C reg params cfg pre ds HF [] []) as H.
    rewrite app_nil_r in H. rewrite H. simpl. rewrite app_nil_r. reflexivity.
  - intros t post.
    rewrite (getDetectors_loop_prefix P C reg params cfg pre ds HF (t :: post) []).
    unfold construct, invoked; simpl.
    destruct (lookup_factory reg t) as [f|]; [|reflexivity].
    destruct (f params (cfg t)); reflexivity.
Qed.

Lemma CreateResourceProvider_result_witness :
  let d0 : Detector := fun _ => (NewResource, "", None) in
  let reg : list (DetectorType * DetectorFactory unit unit) :=
    [("a", fun _ _ => inr d0); ("b", fun _ _ => inr d0)] in
  Forall2 (fun t d => construct reg tt (fun _ => tt) t = inr d) ["a"; "b"] [d0; d0]
  /\ CreateResourceProvider reg tt 7 ["k"] (fun _ => tt) ["a"; "b"]
     = (["a"; "b"], inr (NewResourceProvider 7 ["k"] [d0; d0]))
  /\ CreateResourceProvider reg tt 7 ["k"] (fun _ => tt) ["a"; "b"; "c"; "a"]
     = (["a"; "b"], inl (InvalidDetectorKey "c")).
Proof.
  intros d0 reg.
  assert (HF : Forall2 (fun t d => construct reg tt (fun _ => tt) t = inr d)
                 ["a"; "b"] [d0; d0]) by (repeat constructor).
  destruct (CreateResourceProvider_result unit unit reg tt 7 ["k"] (fun _ => tt)
              ["a"; "b"] [d0; d0] HF) as [H1 H2].
  split; [exact HF|]. split; [exact H1|].
  exact (H2 "c" ["a"]).
Defined.

(** [MergeResource] keeps attribute keys unique: if [to] has no duplicate
    key, neither has the result, whatever [from] holds (even duplicates)
    and whatever [overrideTo] is. *)
Theorem MergeResource_keys_NoDup : forall to from overrideTo,
  NoDup (map fst (attributes to)) ->
  NoDup (map fst (attributes (MergeResource to from overrideTo))).
Proof.
  intros to from o Hnd. rewrite MergeResource_keys. apply add_keys_NoDup. exact Hnd.
Qed.

Lemma MergeResource_keys_NoDup_witness :
  NoDup (map fst (attributes (mkResource [("a", VInt 1)])))
  /\ NoDup (map fst (attributes (MergeResource (mkResource [("a", VInt 1)])
                (mkResource [("b", VInt 2); ("b", VInt 3); ("a", VInt 4)]) true))).
Proof.
  assert (H : NoDup (map fst (attributes (mkResource [("a", VInt 1)]))))
    by (simpl; repeat constructor; simpl; tauto).
  split; [exact H|].
  exact (MergeResource_keys_NoDup _ (mkResource [("b", VInt 2); ("b", VInt 3); ("a", VInt 4)])
           true H).
Defined.

(** With [overrideTo = false], [MergeResource] only appends: the entries of
    [to] come out unchanged and in place, followed by new entries. *)
Theorem MergeResource_keep_appends : forall to from,
  exists suffix, attributes (MergeResource to from false) = app (attributes to) suffix.
Proof.
  intros [t] [[| kv f]]; unfold MergeResource, IsEmptyResource; simpl.
  - exists []. rewrite app_nil_r. reflexivity.
  - assert (Hgen : forall l t', exists s', fold_left (merge_step false) l t' = app t' s').
    { clear. induction l as [| [k v] l IH]; intros t'; simpl.
      - exists []. rewrite app_nil_r. reflexivity.
      - destruct (map_get t' k) eqn:E.
        + apply IH.
        + rewrite (map_put_absent t' k v E).
          destruct (IH (app t' [(k, v)])) as [s' Hs'].
          exists ((k, v) :: s'). rewrite Hs', <- app_assoc. reflexivity. }
    apply (Hgen (kv :: f) t).
Qed.

(** Merging the same resource twice with [overrideTo = false] is the same
    as merging it once. *)
Theorem MergeResource_keep_idempotent : forall to from,
  MergeResource (MergeResource to from false) from false = MergeResource to from false.
Proof.
  intros to [[| kv f]]; [reflexivity|].
  remember (MergeResource to (mkResource (kv :: f)) false) as m eqn:Hm.
  unfold MergeResource at 1; unfold IsEmptyResource; cbn [attributes length Nat.eqb].
  rewrite merge_fold_keep_noop; [destruct m; reflexivity|].
  intros k Hin. rewrite Hm, MergeResource_keep_get.
  destruct (map_get (attributes to) k); [discriminate|].
  apply in_keys_get. exact Hin.
Qed.

(** Filtering an already filtered map with the same allow-list keeps it as
    it is and drops nothing. *)
Theorem filterAttributes_idempotent : forall am keep,
  filterAttributes (fst (filterAttributes am keep)) keep = (fst (filterAttributes am keep), []).
Proof.
  intros am [| k0 ks]; unfold filterAttributes; simpl; [reflexivity|].
  rewrite !removeIf_drop_spec. simpl.
  rewrite filter_idem.
  rewrite (filter_neg_nil (fun kv => mem (fst kv) (k0 :: ks))). reflexivity.
Qed.

(** The schema URL returned by the first [Get] is the first non-empty
    schema URL among the detectors that succeed, in configured order ([""]
    if there is none). *)
Theorem Get_schemaURL_first_nonempty : forall t keep dets ctx client now,
  let ctx' := WithTimeout ctx (Timeout client) now in
  exists p' calls res,
    Get (NewResourceProvider t keep dets) ctx client now
    = (p', calls, Some (res, first_nonempty (map snd (successes ctx' dets)), None)).
Proof.
  intros t keep dets ctx client now ctx'.
  rewrite Get_new. fold ctx'. rewrite detectResource_spec. simpl.
  rewrite fold_MergeSchemaURL. do 3 eexists. reflexivity.
Qed.

(** For every key, the resource returned by the first [Get] holds the value
    of the first succeeding detector (in configured order) whose resource
    has the key, if the key passes the attribute filter, and nothing
    otherwise. *)
Theorem Get_value_first_detector : forall t keep dets ctx client now,
  let ctx' := WithTimeout ctx (Timeout client) now in
  exists p' calls res url,
    Get (NewResourceProvider t keep dets) ctx client now = (p', calls, Some (res, url, None))
    /\ forall k, map_get (attributes res) k =
       if orb (Nat.eqb (length keep) 0) (mem k keep)
       then first_get k (successes ctx' dets) else None.
Proof.
  intros t keep dets ctx client now ctx'.
  rewrite Get_new. fold ctx'. rewrite detectResource_spec.
  do 4 eexists. split; [reflexivity|].
  intros k. cbn [rr_resource attributes detectors attributesToKeep NewResourceProvider].
  cbn [fst rr_resource attributes]. rewrite filterAttributes_get, fold_merge_keep_get. reflexivity.
Qed.

(** The resource returned by the first [Get] never has a duplicate key,
    even when detectors return resources with duplicate keys. *)
Theorem Get_resource_keys_unique : forall t keep dets ctx client now,
  exists p' calls res url,
    Get (NewResourceProvider t keep dets) ctx client now = (p', calls, Some (res, url, None))
    /\ NoDup (map fst (attributes res)).
Proof.
  intros t keep dets ctx client now.
  rewrite Get_new, detectResource_spec.
  do 4 eexists. split; [reflexivity|].
  cbn [rr_resource attributes detectors attributesToKeep NewResourceProvider].
  apply filterAttributes_keys_NoDup, fold_merge_keys_NoDup. constructor.
Qed.

(** When every detector fails (in particular when there is none), the first
    [Get] returns an empty resource, an empty schema URL and a nil error. *)
Theorem Get_all_failed_empty : forall t keep dets ctx client now,
  Forall (fun d : Detector => exists r s e, d (WithTimeout ctx (Timeout client) now) = (r, s, Some e))
    dets ->
  exists p' calls,
    Get (NewResourceProvider t keep dets) ctx client now
    = (p', calls, Some (NewResource, "", None)).
Proof.
  intros t keep dets ctx client now HF.
  rewrite Get_new, detectResource_spec. simpl.
  rewrite (successes_all_fail _ _ HF). simpl.
  unfold filterAttributes. destruct (negb (Nat.eqb (length keep) 0)); simpl;
    do 2 eexists; reflexivity.
Qed.

Lemma Get_all_failed_empty_witness :
  let d : Detector := fun _ => (mkResource [("k", VInt 1)], "v1", Some "unreachable") in
  Forall (fun d : Detector =>
            exists r s e, d (WithTimeout (mkContext [] None) (Timeout (mkClient 1)) 0) = (r, s, Some e))
    [d; d]
  /\ exists p' calls,
       Get (NewResourceProvider 0 ["k"] [d; d]) (mkContext [] None) (mkClient 1) 0
       = (p', calls, Some (NewResource, "", None)).
Proof.
  intros d.
  assert (HF : Forall (fun d : Detector =>
            exists r s e, d (WithTimeout (mkContext [] None) (Timeout (mkClient 1)) 0) = (r, s, Some e))
            [d; d]) by (repeat constructor; do 3 eexists; reflexivity).
  split; [exact HF|].
  exact (Get_all_failed_empty 0 ["k"] [d; d] (mkContext [] None) (mkClient 1) 0 HF).
Defined.
